(** * verify_ui.py: the UI verification script, embedded and verified

    The repository holds one program,
    [jules-scratch/verification/verify_ui.py]: an [asyncio] coroutine
    [main] that drives a headless Chromium through Playwright, and a
    module-level [asyncio.run(main())].

    The script is a straight line of awaited library calls inside an
    [async with] block and a [try]/[finally].  It is embedded as a
    computation in a small state-and-exception monad:

    - every awaited Playwright call is a [call]; the library and the
      browser behind it are an [oracle] that answers each call, given
      the calls made so far, with a value or with a raised exception;
    - the process state holds what the script could read ([argv],
      [environ]), the file system it writes to, and the log of the
      calls made with their replies;
    - [try_finally] and [async_with] follow Python's rules for
      [try]/[finally] and for [async with].

    An awaited call suspends the only task of the event loop until the
    reply arrives, so a call and its reply form one atomic log entry.
    Every call is taken to return or to raise: Playwright bounds each
    of them by a timeout, and a call that hangs is not modelled. *)

From Stdlib Require Import ZArith.
From stdpp Require Import base strings list gmap.

Local Open Scope string_scope.
Local Open Scope list_scope.
Local Open Scope nat_scope.

(** ** Python values the script handles *)

(** A raised exception: its class and its message. *)
Record exn := Exn { exn_class : string; exn_message : string }.

(** Handles of the objects Playwright returns. *)
Record Playwright := PlaywrightHandle { playwright_id : N }.
Record Browser := BrowserHandle { browser_id : N }.
Record Page := PageHandle { page_id : N }.

(** [bytes]: what [page.screenshot] returns and saves. *)
Definition bytes := list Byte.byte.

(** Locators are built without talking to the browser:
    [page.locator(selector)], [page.get_by_role(role, name=...)] and
    [page.get_by_text(text)] only describe how to find an element. *)
Inductive Locator :=
| locator (page : Page) (selector : string)
| get_by_role (page : Page) (role : string) (name : string)
| get_by_text (page : Page) (text : string).

(** [expect(locator)] wraps a locator for an assertion. *)
Record LocatorAssertions := expect { actual_locator : Locator }.

(** ** The awaited calls *)

Inductive call :=
| async_playwright_aenter
    (* [async with async_playwright() as p]: entering the block *)
| async_playwright_aexit (p : Playwright)
    (* leaving the block, normally or with an exception in flight *)
| chromium_launch (p : Playwright) (headless : bool)
    (* [p.chromium.launch(headless=...)] *)
| new_page (b : Browser)
| goto (page : Page) (url : string)
| set_input_files (l : Locator) (files : string)
| dispatch_event (page : Page) (selector : string) (type_ : string)
| click (l : Locator)
| to_be_visible (a : LocatorAssertions) (timeout : Z)
    (* [timeout] in milliseconds *)
| screenshot (page : Page) (path : string) (full_page : option bool)
    (* [full_page] is [None] when the keyword is not passed *)
| close (b : Browser).

(** What a call evaluates to when it does not raise. *)
Definition ret_type (c : call) : Type :=
  match c with
  | async_playwright_aenter => Playwright
  | chromium_launch _ _ => Browser
  | new_page _ => Page
  | screenshot _ _ _ => bytes
  | _ => unit
  end.

(** One completed call: the call and its reply, an exception ([inl])
    or a value ([inr]). *)
Record event := Ev { ev_call : call; ev_reply : exn + ret_type ev_call }.

(** The library and the browser: a reply for each call, which may
    depend on everything that happened before. *)
Definition oracle : Type := list event -> forall c : call, exn + ret_type c.

(** ** Process state *)

Record state := State {
  argv : list string;              (* [sys.argv] *)
  environ : gmap string string;    (* [os.environ] *)
  files : gmap string bytes;       (* the file system, by path *)
  responses : oracle;              (* the world outside the process *)
  log : list event                 (* calls completed so far *)
}.

Definition record_event (ev : event) (s : state) : state :=
  State (argv s) (environ s) (files s) (responses s) (log s ++ [ev]).

Definition write_file (path : string) (data : bytes) (s : state) : state :=
  State (argv s) (environ s) (<[path := data]> (files s)) (responses s) (log s).

(** The one call with an effect inside the process: [page.screenshot]
    with a [path] saves the image it returns to that path. *)
Definition effect (c : call) : ret_type c -> state -> state :=
  match c as c0 return ret_type c0 -> state -> state with
  | screenshot _ path _ => fun image s => write_file path image s
  | _ => fun _ s => s
  end.

(** ** The monad *)

Inductive result (A : Type) :=
| Returned (a : A)
| Raised (e : exn).
Arguments Returned {A} a.
Arguments Raised {A} e.

Definition M (A : Type) : Type := state -> result A * state.

Definition ret {A} (a : A) : M A := fun s => (Returned a, s).

Definition bind {A B} (m : M A) (k : A -> M B) : M B :=
  fun s =>
    match m s with
    | (Returned a, s') => k a s'
    | (Raised e, s') => (Raised e, s')
    end.

(** The monad's operations under stdpp's notations: [x ← m; k] for
    [x = await ...] followed by [k], and [m ;; k] when the value is
    dropped. *)
#[export] Instance M_ret : MRet M := @ret.
#[export] Instance M_bind : MBind M := fun A B k m => bind m k.

(** [await c]: ask the world, log the completed call, apply its
    effect, and return the value or raise the exception. *)
Definition await (c : call) : M (ret_type c) :=
  fun s =>
    match responses s (log s) c with
    | inr v => (Returned v, effect c v (record_event (Ev c (inr v)) s))
    | inl e => (Raised e, record_event (Ev c (inl e)) s)
    end.

(** [try: body finally: cleanup].  The cleanup runs whether [body]
    returned or raised; an exception raised by the cleanup replaces
    whatever [body] produced; otherwise the result of [body] stands. *)
Definition try_finally {A} (body : M A) (cleanup : M unit) : M A :=
  fun s =>
    let (r, s') := body s in
    match cleanup s' with
    | (Returned _, s'') => (r, s'')
    | (Raised e, s'') => (Raised e, s'')
    end.

(** [async with async_playwright() as p: body].  If entering raises,
    nothing else runs.  Otherwise the exit runs after the body, whether
    it returned or raised.  Playwright's [__aexit__] stops the driver
    and returns [None], so it never swallows the exception in flight. *)
Definition async_with {A} (body : Playwright -> M A) : M A :=
  p ← await async_playwright_aenter;
  try_finally (body p) (await (async_playwright_aexit p)).

(** Reading the process's arguments and environment: what a script
    that consumed them would call.  [main] below calls neither. *)
Definition sys_argv : M (list string) := fun s => (Returned (argv s), s).
Definition os_getenv (key : string) : M (option string) :=
  fun s => (Returned (environ s !! key), s).

(** ** The script *)

Definition main : M unit :=
  async_with (fun p =>
    browser ← await (chromium_launch p true);
    page ← await (new_page browser);
    try_finally
      (await (goto page "http://localhost:5173");;
       await (set_input_files (locator page "#file-input")
                "jules-scratch/verification/silent.mp3");;
       await (dispatch_event page "#file-input" "change");;
       await (click (get_by_role page "button" "Start Processing"));;
       await (to_be_visible
                (expect (get_by_text page "Transcription Complete")) 60000);;
       await (screenshot page "jules-scratch/verification/results.png" None);;
       await (click (get_by_role page "button" "raw"));;
       await (screenshot page "jules-scratch/verification/raw_results.png" None);;
       mret tt)
      (await (close browser))).

(** [asyncio.run(coro)] runs the coroutine to its end on a fresh event
    loop and hands back its value or re-raises its exception. *)
Definition asyncio_run {A} (coro : M A) : M A := coro.

(** The module body: [asyncio.run(main())]. *)
Definition script : M unit := asyncio_run main.

(** A run of the script: a fresh process, nothing logged yet. *)
Definition run (args : list string) (env : gmap string string)
    (fs : gmap string bytes) (world : oracle) : result unit * state :=
  script (State args env fs world []).

(** ** Reading a log *)

Definition ev_ok (ev : event) : bool :=
  match ev_reply ev with inr _ => true | inl _ => false end.

Definition ev_raised (ev : event) : option exn :=
  match ev_reply ev with inl e => Some e | inr _ => None end.

Definition calls (l : list event) : list call := map ev_call l.

Definition is_close (c : call) : bool :=
  match c with close _ => true | _ => false end.

Definition is_screenshot (c : call) : bool :=
  match c with screenshot _ _ _ => true | _ => false end.

Definition is_set_input_files (c : call) : bool :=
  match c with set_input_files _ _ => true | _ => false end.

(** The operations on the page: the statements of the [try] body. *)
Definition is_page_op (c : call) : bool :=
  match c with
  | goto _ _ | set_input_files _ _ | dispatch_event _ _ _ | click _
  | to_be_visible _ _ | screenshot _ _ _ => true
  | _ => false
  end.

(** How often [browser.close()] was invoked. *)
Definition closes (l : list event) : nat :=
  length (List.filter is_close (calls l)).

(** The image a completed screenshot saved, with its path. *)
Definition image (ev : event) : option (string * bytes) :=
  match ev with
  | Ev c r =>
      match c return exn + ret_type c -> option (string * bytes) with
      | screenshot _ path _ =>
          fun r => match r with inr data => Some (path, data) | inl _ => None end
      | _ => fun _ => None
      end r
  end.

(** The files written during a run, in the order of writing. *)
Definition images (l : list event) : list (string * bytes) := omap image l.
Definition written (l : list event) : list string := (images l).*1.

(** Writing a list of files, one after the other. *)
Definition write_all (ws : list (string * bytes)) (fs : gmap string bytes)
  : gmap string bytes :=
  foldl (fun fs' w => <[w.1 := w.2]> fs') fs ws.

(** Every exception raised during a run, in order. *)
Definition raised (l : list event) : list exn := omap ev_raised l.

(** The browser a completed [launch] returned. *)
Definition launched (ev : event) : option Browser :=
  match ev with
  | Ev c r =>
      match c return exn + ret_type c -> option Browser with
      | chromium_launch _ _ =>
          fun r => match r with inr b => Some b | inl _ => None end
      | _ => fun _ => None
      end r
  end.

(** The page a completed [new_page] returned. *)
Definition opened (ev : event) : option Page :=
  match ev with
  | Ev c r =>
      match c return exn + ret_type c -> option Page with
      | new_page _ =>
          fun r => match r with inr page => Some page | inl _ => None end
      | _ => fun _ => None
      end r
  end.

(** The run got as far as the [try] block: a page was opened. *)
Definition try_entered (l : list event) : bool :=
  match omap opened l with [] => false | _ :: _ => true end.

(** The browsers [close] was invoked on. *)
Definition closed (l : list event) : list Browser :=
  omap (fun c => match c with close b => Some b | _ => None end) (calls l).

(** The calls made after the first [close]. *)
Fixpoint after_close (cs : list call) : list call :=
  match cs with
  | [] => []
  | c :: cs' => if is_close c then cs' else after_close cs'
  end.

(** The order the specification gives for the operations on the page:
    navigate, attach the file to the file input, dispatch a change
    event on that input, click "Start Processing", wait for
    "Transcription Complete", first screenshot, click "raw", second
    screenshot. *)
Definition steps (page : Page) : list call :=
  [ goto page "http://localhost:5173";
    set_input_files (locator page "#file-input")
      "jules-scratch/verification/silent.mp3";
    dispatch_event page "#file-input" "change";
    click (get_by_role page "button" "Start Processing");
    to_be_visible (expect (get_by_text page "Transcription Complete")) 60000;
    screenshot page "jules-scratch/verification/results.png" None;
    click (get_by_role page "button" "raw");
    screenshot page "jules-scratch/verification/raw_results.png" None ].

(** The page operations of a log, with their replies. *)
Definition page_events (l : list event) : list event :=
  List.filter (fun ev => is_page_op (ev_call ev)) l.

(** Every entry but the last one returned normally. *)
Fixpoint returned_but_last (l : list event) : bool :=
  match l with
  | [] => true
  | ev :: l' =>
      match l' with
      | [] => true
      | _ :: _ => ev_ok ev && returned_but_last l'
      end
  end.

(** ** Worlds to run the script in *)

(** A small image: the first bytes of a PNG file. *)
Definition png : bytes := [Byte.x89; Byte.x50; Byte.x4e; Byte.x47].

(** The value a call returns when all goes well. *)
Definition fresh (c : call) : ret_type c :=
  match c with
  | async_playwright_aenter => PlaywrightHandle 1
  | chromium_launch _ _ => BrowserHandle 1
  | new_page _ => PageHandle 1
  | screenshot _ _ _ => png
  | _ => tt
  end.

(** A world in which the calls picked by [fails] raise and every
    other call returns. *)
Definition failing (fails : call -> option exn) : oracle :=
  fun _ c =>
    match fails c with
    | Some e => inl e
    | None => inr (fresh c)
    end.

(** A world in which nothing goes wrong. *)
Definition cooperative : oracle := failing (fun _ => None).

(** The exceptions the worlds below raise. *)
Definition launch_error : exn :=
  Exn "Error" "BrowserType.launch: Executable doesn't exist".
Definition new_page_error : exn :=
  Exn "Error" "Browser.new_page: Target page, context or browser has been closed".
Definition navigation_error : exn :=
  Exn "Error" "Page.goto: net::ERR_CONNECTION_REFUSED at http://localhost:5173/".
Definition close_error : exn :=
  Exn "Error" "Browser.close: Connection closed while reading from the driver".
Definition visibility_timeout : exn :=
  Exn "AssertionError" "Locator expected to be visible".

(** Modelled from the spec: the library's wait behind
    [expect(locator).to_be_visible(timeout=...)], which is not part of
    this repository.  The spec: "Poll/wait for a text element [...] to
    become visible, with an upper bound wait [...]; fails with a timeout
    condition if the text never appears."  Time is counted in
    milliseconds from the moment the wait starts; [appears_after] is
    when the text becomes visible, [None] if it never does. *)
Definition appears_within (appears_after : option Z) (timeout : Z) : bool :=
  match appears_after with
  | Some t => (t <=? timeout)%Z
  | None => false
  end.

Definition wait_reply (appears_after : option Z) (timeout : Z) : exn + unit :=
  if appears_within appears_after timeout then inr tt
  else inl visibility_timeout.

(** A world whose wait for the completion text follows [wait_reply]. *)
Definition polls (world : oracle) (appears_after : option Z) : Prop :=
  forall hist page timeout,
    world hist
      (to_be_visible (expect (get_by_text page "Transcription Complete"))
         timeout)
    = wait_reply appears_after timeout.

(** Modelled from the spec: the application under test, as far as the
    spec describes it.  The target is [reachable] or not ("Navigation /
    connection failure (target not reachable)"), and the completion
    text shows [appears_after] milliseconds into the wait. *)
Definition app_under_test (reachable : bool) (appears_after : option Z)
  : oracle :=
  fun _ c =>
    match c return exn + ret_type c with
    | goto _ _ => if reachable then inr tt else inl navigation_error
    | to_be_visible _ timeout => wait_reply appears_after timeout
    | c' => inr (fresh c')
    end.

(** Playwright's [Page.screenshot] takes [full_page] as an optional
    keyword; left out, the screenshot shows the viewport only. *)
Definition full_page_default : bool := false.

(** Whether a screenshot call captures the whole scrollable page. *)
Definition captures_full_page (c : call) : option bool :=
  match c with
  | screenshot _ _ full_page => Some (default full_page_default full_page)
  | _ => None
  end.

(** The path and the [full_page] keyword of a screenshot call. *)
Definition screenshot_args (c : call) : option (string * option bool) :=
  match c with
  | screenshot _ path full_page => Some (path, full_page)
  | _ => None
  end.

Definition results_png : string := "jules-scratch/verification/results.png".
Definition raw_results_png : string :=
  "jules-scratch/verification/raw_results.png".

(** Seconds to the milliseconds Playwright counts in. *)
Definition seconds (n : Z) : Z := (n * 1000)%Z.

(** Worlds with one or two faults. *)
Definition launch_fails : oracle :=
  failing (fun c =>
    match c with chromium_launch _ _ => Some launch_error | _ => None end).

Definition new_page_fails : oracle :=
  failing (fun c =>
    match c with new_page _ => Some new_page_error | _ => None end).

Definition goto_and_close_fail : oracle :=
  failing (fun c =>
    match c with
    | goto _ _ => Some navigation_error
    | close _ => Some close_error
    | _ => None
    end).

(** The target is down; the text never shows. *)
Definition unreachable : oracle := app_under_test false None.
Definition never_completes : oracle := app_under_test true None.

(** The text never shows, and [close] raises as well. *)
Definition never_completes_close_fails : oracle :=
  fun _ c =>
    match c return exn + ret_type c with
    | to_be_visible _ timeout => wait_reply None timeout
    | close _ => inl close_error
    | c' => inr (fresh c')
    end.

(** A call that succeeded on the button with the given name. *)
Definition clicked (name : string) (ev : event) : bool :=
  match ev_call ev with
  | click (get_by_role _ role name') =>
      String.eqb role "button" && String.eqb name' name && ev_ok ev
  | _ => false
  end.

(** The navigation was attempted and raised. *)
Definition navigation_failed (l : list event) : bool :=
  existsb (fun ev =>
    match ev_call ev with goto _ _ => negb (ev_ok ev) | _ => false end) l.

(** Running the script again where the first run left the files. *)
Definition rerun (args : list string) (env : gmap string string)
    (fs : gmap string bytes) (world1 world2 : oracle)
  : result unit * state :=
  run args env (files (run args env fs world1).2) world2.

(** Two states that differ at most in [argv] and [environ]. *)
Definition same_outside (s1 s2 : state) : Prop :=
  files s1 = files s2 /\ responses s1 = responses s2 /\ log s1 = log s2.

(** A computation that reads neither [argv] nor [environ]: from states
    that agree on everything else it gives the same result and states
    that still agree. *)
Definition oblivious {A} (m : M A) : Prop :=
  forall s1 s2, same_outside s1 s2 ->
    (m s1).1 = (m s2).1 /\ same_outside (m s1).2 (m s2).2.

(** The calls that come after the first screenshot in the program: the
    click on the raw tab and the second screenshot. *)
Definition after_first_screenshot (c : call) : bool :=
  match c with
  | click (get_by_role _ _ name) => String.eqb name "raw"
  | screenshot _ path _ => String.eqb path raw_results_png
  | _ => false
  end.

(** An entry that wrote [results.png]. *)
Definition wrote_results (ev : event) : bool :=
  match image ev with
  | Some (path, _) => String.eqb path results_png
  | None => false
  end.

(** Scanning a log: no call of [after_first_screenshot] comes before
    [results.png] is written ([seen] tells whether it already was). *)
Fixpoint first_then_second (seen : bool) (l : list event) : bool :=
  match l with
  | [] => true
  | ev :: l' =>
      (negb (after_first_screenshot (ev_call ev)) || seen)
      && first_then_second (seen || wrote_results ev) l'
  end.

(** ** More ways to read a log *)

Definition is_aexit (c : call) : bool :=
  match c with async_playwright_aexit _ => true | _ => false end.

(** How often the [async with] block was left. *)
Definition exits (l : list event) : nat :=
  length (List.filter is_aexit (calls l)).

(** The Playwright object a completed entry into the [async with]
    block returned. *)
Definition entered (ev : event) : option Playwright :=
  match ev with
  | Ev c r =>
      match c return exn + ret_type c -> option Playwright with
      | async_playwright_aenter =>
          fun r => match r with inr p => Some p | inl _ => None end
      | _ => fun _ => None
      end r
  end.






(** What tells the calls of the script apart: the method, and for a
    click and a screenshot the button and the path. *)
Definition call_name (c : call) : string :=
  match c with
  | async_playwright_aenter => "__aenter__"
  | async_playwright_aexit _ => "__aexit__"
  | chromium_launch _ _ => "launch"
  | new_page _ => "new_page"
  | goto _ _ => "goto"
  | set_input_files _ _ => "set_input_files"
  | dispatch_event _ _ _ => "dispatch_event"
  | click (get_by_role _ _ name) => "click " +:+ name
  | click _ => "click"
  | to_be_visible _ _ => "to_be_visible"
  | screenshot _ path _ => "screenshot " +:+ path
  | close _ => "close"
  end.

(** Worlds in which entering, or leaving, the [async with] block
    raises. *)
Definition driver_error : exn :=
  Exn "Error" "Connection closed while reading from the driver".

Definition enter_fails : oracle :=
  failing (fun c =>
    match c with async_playwright_aenter => Some driver_error | _ => None end).

Definition exit_fails : oracle :=
  failing (fun c =>
    match c with async_playwright_aexit _ => Some driver_error | _ => None end).

(** A world in which the click on the raw tab raises. *)
Definition raw_tab_missing : oracle :=
  failing (fun c =>
    match c with
    | click (get_by_role _ _ name) =>
        if String.eqb name "raw"
        then Some (Exn "TimeoutError" "Locator.click: Timeout 30000ms exceeded")
        else None
    | _ => None
    end).

(** ** Proof tools *)

Ltac unfold_run :=
  unfold rerun, run, script, asyncio_run, main, async_with, try_finally,
    await, mbind, M_bind, bind, mret, M_ret, ret;
  cbn.

(** Case analysis on the next reply of the world. *)
Ltac ask world :=
  match goal with
  | |- context [world ?h ?c] =>
      destruct (world h c) as [?err | ?val] eqn:?; cbn
  end.

(** Every way a run can go: each call returns or raises, and a raise
    inside the [try] still leads through the cleanups. *)
Ltac run_cases world := unfold_run; repeat ask world.

(** Closing a goal about one awaited call with a lemma [lem] that
    holds of every call. *)
Ltac awaited lem :=
  match goal with |- _ (await ?c) => exact (lem c) end.

(** ** The script on concrete worlds *)

Example cooperative_run :
  let (r, s) := run [] ∅ ∅ cooperative in
  r = Returned tt
  /\ calls (log s)
     = [ async_playwright_aenter;
         chromium_launch (PlaywrightHandle 1) true;
         new_page (BrowserHandle 1) ]
       ++ steps (PageHandle 1)
       ++ [ close (BrowserHandle 1);
            async_playwright_aexit (PlaywrightHandle 1) ]
  /\ files s = <[raw_results_png := png]> (<[results_png := png]> ∅).
Proof. unfold_run. repeat split. Qed.

Example unreachable_run :
  let (r, s) := run [] ∅ ∅ unreachable in
  r = Raised navigation_error
  /\ calls (log s)
     = [ async_playwright_aenter;
         chromium_launch (PlaywrightHandle 1) true;
         new_page (BrowserHandle 1);
         goto (PageHandle 1) "http://localhost:5173";
         close (BrowserHandle 1);
         async_playwright_aexit (PlaywrightHandle 1) ]
  /\ files s = ∅.
Proof. unfold_run. repeat split. Qed.

(** [new_page] is awaited before the [try]: when it raises, the
    [finally] is not in force yet and [close] is not invoked; only the
    exit of the [async with] block runs. *)
Example new_page_fails_run :
  let (r, s) := run [] ∅ ∅ new_page_fails in
  r = Raised new_page_error
  /\ calls (log s)
     = [ async_playwright_aenter;
         chromium_launch (PlaywrightHandle 1) true;
         new_page (BrowserHandle 1);
         async_playwright_aexit (PlaywrightHandle 1) ]
  /\ closes (log s) = 0.
Proof. unfold_run. repeat split. Qed.

(** The bound of the wait is 60 000 ms: a text that shows at the last
    millisecond is seen, one that shows a millisecond later is not. *)
Example wait_bound :
  (run [] ∅ ∅ (app_under_test true (Some 60000%Z))).1 = Returned tt
  /\ (run [] ∅ ∅ (app_under_test true (Some 60001%Z))).1
     = Raised visibility_timeout.
Proof. unfold_run. split; reflexivity. Qed.

(** ** General facts about runs *)

Section runs.
Context (args : list string) (env : gmap string string)
        (fs : gmap string bytes) (world : oracle).

(** [close] is never invoked twice. *)
Lemma close_at_most_once : closes (log (run args env fs world).2) ≤ 1.
Proof. run_cases world; unfold closes; cbn; lia. Qed.

(** The file system after a run is the one before it with the saved
    screenshots written, in order. *)
Lemma files_after_run :
  files (run args env fs world).2
  = write_all (images (log (run args env fs world).2)) fs.
Proof. run_cases world; reflexivity. Qed.

(** The script touches neither the arguments, nor the environment, nor
    the world it talks to. *)
Lemma run_frame :
  argv (run args env fs world).2 = args
  /\ environ (run args env fs world).2 = env
  /\ responses (run args env fs world).2 = world.
Proof. run_cases world; done. Qed.

(** Only the two fixed paths are ever written, in this order. *)
Lemma written_fixed :
  written (log (run args env fs world).2)
    `prefix_of` [results_png; raw_results_png].
Proof. run_cases world; eexists; reflexivity. Qed.

(** The run returns exactly when no call raised. *)
Lemma returns_iff_nothing_raised :
  (run args env fs world).1 = Returned tt
  <-> raised (log (run args env fs world).2) = [].
Proof. run_cases world; split; (done || discriminate). Qed.

(** What a run that returns looks like. *)
Lemma success_shape :
  (run args env fs world).1 = Returned tt ->
  exists p b page image1 image2,
    log (run args env fs world).2
    = [ Ev async_playwright_aenter (inr p);
        Ev (chromium_launch p true) (inr b);
        Ev (new_page b) (inr page);
        Ev (goto page "http://localhost:5173") (inr tt);
        Ev (set_input_files (locator page "#file-input")
              "jules-scratch/verification/silent.mp3") (inr tt);
        Ev (dispatch_event page "#file-input" "change") (inr tt);
        Ev (click (get_by_role page "button" "Start Processing")) (inr tt);
        Ev (to_be_visible
              (expect (get_by_text page "Transcription Complete")) 60000)
           (inr tt);
        Ev (screenshot page results_png None) (inr image1);
        Ev (click (get_by_role page "button" "raw")) (inr tt);
        Ev (screenshot page raw_results_png None) (inr image2);
        Ev (close b) (inr tt);
        Ev (async_playwright_aexit p) (inr tt) ]
    /\ files (run args env fs world).2
       = <[raw_results_png := image2]> (<[results_png := image1]> fs).
Proof.
  run_cases world; intros; try discriminate.
  repeat match goal with
         | u : ret_type ?c |- _ =>
             lazymatch eval cbn in (ret_type c) with unit => destruct u end
         end.
  do 5 eexists. split; reflexivity.
Qed.

End runs.

(** ** The browser is closed once the [try] is entered *)

(** C1, as stated, fails: when the launch raises there is no browser,
    the [try] is never reached, and [close] is not invoked in that
    run. *)
Lemma launch_failure_never_closes :
  (run [] ∅ ∅ launch_fails).1 = Raised launch_error
  /\ closes (log (run [] ∅ ∅ launch_fails).2) = 0.
Proof. unfold_run. split; reflexivity. Qed.

(** C1, amended: in every run that enters the [try] block (the browser
    was launched and the page opened), whether the statements of the
    block all return or one of them raises, [close] is invoked exactly
    once, on the browser that was launched, and no operation on the
    page comes after it. *)
Theorem close_exactly_once args env fs world :
  let l := log (run args env fs world).2 in
  try_entered l = true ->
  closes l = 1
  /\ (exists b, omap launched l = [b] /\ closed l = [b])
  /\ List.filter is_page_op (after_close (calls l)) = [].
Proof.
  run_cases world; intros; try discriminate.
  all: repeat split; eauto.
Qed.

Lemma close_exactly_once_unreachable :
  try_entered (log (run [] ∅ ∅ unreachable).2) = true
  /\ closes (log (run [] ∅ ∅ unreachable).2) = 1.
Proof.
  split; [ unfold_run; reflexivity | ].
  apply (close_exactly_once [] ∅ ∅ unreachable).
  unfold_run; reflexivity.
Defined.

(** ** Program order *)

(** C2: the script performs the operations on the page in the order
    navigate, attach the file, dispatch the change event, click "Start
    Processing", wait for "Transcription Complete", first screenshot,
    click "raw", second screenshot.  In every run the page operations
    performed are an initial part of that list; each one but the last
    has returned before the next is issued (only the last may have
    raised).  The script does perform them: when no call of the run
    raises, all eight are performed, in this order; and so are they
    whenever the page was opened and no operation on it raised. *)
Theorem program_order args env fs world :
  let l := log (run args env fs world).2 in
  exists page,
    calls (page_events l) `prefix_of` steps page
    /\ returned_but_last (page_events l) = true
    /\ (raised l = [] -> calls (page_events l) = steps page)
    /\ (try_entered l = true ->
        forallb ev_ok (page_events l) = true ->
        calls (page_events l) = steps page).
Proof.
  run_cases world.
  all: unshelve
         (eexists; split; [ eexists; reflexivity | ];
          split; [ reflexivity | ];
          split; intros; try discriminate; reflexivity);
       exact (PageHandle 0).
Qed.

(** ** Screenshots *)

(** C4, as stated, fails: neither screenshot call passes [full_page],
    so under the library's default both capture the viewport only. *)
Lemma screenshots_are_not_full_page :
  omap captures_full_page (calls (log (run [] ∅ ∅ cooperative).2))
  = [false; false].
Proof. unfold_run. reflexivity. Qed.

(** C4, amended: both screenshot operations save to a fixed path, the
    first to [results.png] and the second to [raw_results.png], and
    neither asks for the full page: the keyword is left out, and the
    capture is of the viewport. *)
Theorem screenshots_fixed_paths_viewport args env fs world :
  let l := log (run args env fs world).2 in
  omap screenshot_args (calls l)
    `prefix_of` [(results_png, None); (raw_results_png, None)]
  /\ omap captures_full_page (calls l) `prefix_of` [false; false].
Proof. run_cases world; split; eexists; reflexivity. Qed.

(** ** Failing navigation *)

(** C5: when the navigation raises, the run fails, the file is never
    attached, no screenshot is attempted and no file is written. *)
Theorem navigation_failure_stops_run args env fs world :
  let r := (run args env fs world).1 in
  let s := (run args env fs world).2 in
  navigation_failed (log s) = true ->
  (exists e, r = Raised e)
  /\ List.filter is_set_input_files (calls (log s)) = []
  /\ List.filter is_screenshot (calls (log s)) = []
  /\ written (log s) = []
  /\ files s = fs.
Proof.
  run_cases world; intros; try discriminate.
  all: repeat split; eauto.
Qed.

Lemma navigation_failure_unreachable :
  navigation_failed (log (run [] ∅ ∅ unreachable).2) = true
  /\ (exists e, (run [] ∅ ∅ unreachable).1 = Raised e)
  /\ written (log (run [] ∅ ∅ unreachable).2) = []
  /\ files (run [] ∅ ∅ unreachable).2 = ∅.
Proof.
  split; [ unfold_run; reflexivity | ].
  destruct (navigation_failure_stops_run [] ∅ ∅ unreachable)
    as (Hr & _ & _ & Hw & Hf); [ unfold_run; reflexivity | ].
  exact (conj Hr (conj Hw Hf)).
Defined.

(** ** The wait for the completion text *)

(** C3, as stated, fails: the text never shows, the wait raises the
    timeout after the "Start Processing" click, and then [close], in
    the [finally], raises too.  The run ends with the exception of
    [close], not with the timeout. *)
Lemma timeout_replaced_by_close_error :
  polls never_completes_close_fails None
  /\ appears_within None (seconds 60) = false
  /\ existsb (clicked "Start Processing")
       (log (run [] ∅ ∅ never_completes_close_fails).2) = true
  /\ head (raised (log (run [] ∅ ∅ never_completes_close_fails).2))
     = Some visibility_timeout
  /\ (run [] ∅ ∅ never_completes_close_fails).1 = Raised close_error
  /\ close_error ≠ visibility_timeout.
Proof.
  split; [ intros hist page timeout; reflexivity | ].
  split; [ reflexivity | ].
  unfold_run. repeat split; (reflexivity || discriminate).
Qed.

(** C3, amended: the wait is issued with a bound of 60 seconds.  When
    the text does not become visible within that bound after the "Start
    Processing" click, the wait raises the timeout, the run fails, the
    wait is the last operation on the page, no screenshot is attempted
    and no file is written.  The timeout is the first exception of the
    run; the run ends with the last exception raised, which is the
    timeout unless a cleanup ([close], the exit of the [async with])
    raises after it. *)
Theorem wait_timeout_stops_run args env fs world appears_after :
  let r := (run args env fs world).1 in
  let s := (run args env fs world).2 in
  polls world appears_after ->
  appears_within appears_after (seconds 60) = false ->
  existsb (clicked "Start Processing") (log s) = true ->
  (exists e, r = Raised e /\ last (raised (log s)) = Some e)
  /\ head (raised (log s)) = Some visibility_timeout
  /\ (raised (log s) = [visibility_timeout] -> r = Raised visibility_timeout)
  /\ (exists page,
        last (calls (page_events (log s)))
        = Some (to_be_visible
                  (expect (get_by_text page "Transcription Complete"))
                  (seconds 60)))
  /\ List.filter is_screenshot (calls (log s)) = []
  /\ written (log s) = []
  /\ files s = fs.
Proof.
  intros r s Hpolls Hnot. subst r s.
  change (seconds 60) with 60000%Z in *.
  run_cases world; intros Hclick; try discriminate Hclick.
  all: match goal with
       | E : _ _ (to_be_visible _ _) = _ |- _ =>
           rewrite Hpolls in E; unfold wait_reply in E; rewrite Hnot in E;
           try discriminate E; injection E as <-
       end.
  all: repeat split; eauto; intros; discriminate.
Qed.

Lemma wait_timeout_never_completes :
  (exists e, (run [] ∅ ∅ never_completes).1 = Raised e)
  /\ (run [] ∅ ∅ never_completes).1 = Raised visibility_timeout
  /\ written (log (run [] ∅ ∅ never_completes).2) = []
  /\ files (run [] ∅ ∅ never_completes).2 = ∅.
Proof.
  destruct (wait_timeout_stops_run [] ∅ ∅ never_completes None)
    as ((e & Hr & _) & _ & Hsame & _ & _ & Hw & Hf).
  - intros hist page timeout. reflexivity.
  - reflexivity.
  - unfold_run. reflexivity.
  - refine (conj (ex_intro _ e Hr) (conj (Hsame _) (conj Hw Hf))).
    unfold_run. reflexivity.
Defined.

(** ** Errors leave the script as they are *)

(** C6, as stated, fails on two counts.  When a statement of the [try]
    raises and [close] raises after it, the exception that leaves the
    script is the one from [close], not the one from the failing step.
    And when the launch raises, its exception leaves the script without
    [close] having run. *)
Lemma cleanup_error_replaces_step_error :
  (head (raised (log (run [] ∅ ∅ goto_and_close_fail).2))
     = Some navigation_error
   /\ closes (log (run [] ∅ ∅ goto_and_close_fail).2) = 1
   /\ (run [] ∅ ∅ goto_and_close_fail).1 = Raised close_error
   /\ close_error ≠ navigation_error)
  /\ (head (raised (log (run [] ∅ ∅ launch_fails).2)) = Some launch_error
      /\ (run [] ∅ ∅ launch_fails).1 = Raised launch_error
      /\ closes (log (run [] ∅ ∅ launch_fails).2) = 0).
Proof. unfold_run. repeat split; (reflexivity || discriminate). Qed.

(** C6, amended: the script catches and translates nothing.  When a
    step raises, the run ends with an exception, and that exception is
    the last one raised in the run: the failing step's own, unchanged,
    unless a cleanup (the [close] of the [finally], the exit of the
    [async with]) raises after it, in which case the cleanup's
    exception leaves the script instead.  [close] has run once before
    the exception leaves when the failing step is inside the [try]. *)
Theorem errors_propagate args env fs world e :
  let r := (run args env fs world).1 in
  let s := (run args env fs world).2 in
  head (raised (log s)) = Some e ->
  (exists e', r = Raised e' /\ last (raised (log s)) = Some e')
  /\ (raised (log s) = [e] -> r = Raised e)
  /\ (try_entered (log s) = true -> closes (log s) = 1).
Proof.
  run_cases world; intros H; try discriminate H; injection H as <-.
  all: repeat split; eauto; intros; (discriminate || simplify_eq; reflexivity).
Qed.

Lemma errors_propagate_unreachable :
  head (raised (log (run [] ∅ ∅ unreachable).2)) = Some navigation_error
  /\ (run [] ∅ ∅ unreachable).1 = Raised navigation_error
  /\ closes (log (run [] ∅ ∅ unreachable).2) = 1.
Proof.
  split; [ unfold_run; reflexivity | ].
  destruct (errors_propagate [] ∅ ∅ unreachable navigation_error)
    as (_ & Hsame & Hclose); [ unfold_run; reflexivity | ].
  split; [ apply Hsame | apply Hclose ]; unfold_run; reflexivity.
Defined.

(** ** The successful run *)

(** C7: a run that returns has navigated to [http://localhost:5173],
    attached [silent.mp3], waited for "Transcription Complete", saved
    [results.png], clicked "raw" and saved [raw_results.png], every
    call returning; these two files, in this order, are all it wrote. *)
Theorem successful_run args env fs world :
  let r := (run args env fs world).1 in
  let s := (run args env fs world).2 in
  r = Returned tt ->
  exists p b page image1 image2,
    calls (log s)
    = [ async_playwright_aenter;
        chromium_launch p true;
        new_page b;
        goto page "http://localhost:5173";
        set_input_files (locator page "#file-input")
          "jules-scratch/verification/silent.mp3";
        dispatch_event page "#file-input" "change";
        click (get_by_role page "button" "Start Processing");
        to_be_visible
          (expect (get_by_text page "Transcription Complete")) 60000;
        screenshot page "jules-scratch/verification/results.png" None;
        click (get_by_role page "button" "raw");
        screenshot page "jules-scratch/verification/raw_results.png" None;
        close b;
        async_playwright_aexit p ]
    /\ forallb ev_ok (log s) = true
    /\ images (log s) = [(results_png, image1); (raw_results_png, image2)]
    /\ files s = <[raw_results_png := image2]> (<[results_png := image1]> fs).
Proof.
  intros r s Hr.
  destruct (success_shape args env fs world Hr)
    as (p & b & page & image1 & image2 & Hlog & Hfiles).
  exists p, b, page, image1, image2. subst s.
  rewrite Hlog, Hfiles. repeat split.
Qed.

Lemma successful_run_cooperative :
  (run [] ∅ ∅ cooperative).1 = Returned tt
  /\ written (log (run [] ∅ ∅ cooperative).2) = [results_png; raw_results_png].
Proof.
  split; [ unfold_run; reflexivity | ].
  destruct (successful_run [] ∅ ∅ cooperative)
    as (p & b & page & image1 & image2 & _ & _ & Himages & _);
    [ unfold_run; reflexivity | ].
  unfold written. rewrite Himages. reflexivity.
Defined.

(** ** Running the script again *)

Lemma paths_differ : results_png ≠ raw_results_png.
Proof. discriminate. Qed.

Lemma paths_differ' : raw_results_png ≠ results_png.
Proof. discriminate. Qed.

(** C8: when the script is run twice and both runs return, each run
    writes the same two fixed paths, in the same order; the second run
    adds no file, and leaves the file system as if it alone had run:
    what the first run saved is overwritten. *)
Theorem rerun_overwrites args env fs world1 world2 :
  let first := run args env fs world1 in
  let second := rerun args env fs world1 world2 in
  first.1 = Returned tt ->
  second.1 = Returned tt ->
  written (log first.2) = [results_png; raw_results_png]
  /\ written (log second.2) = written (log first.2)
  /\ dom (files second.2) = dom (files first.2)
  /\ files second.2 = write_all (images (log second.2)) fs.
Proof.
  intros first second H1 H2. subst first second. unfold rerun in *.
  destruct (success_shape _ _ _ _ H1) as (p & b & page & i1 & i2 & Hl1 & Hf1).
  destruct (success_shape _ _ _ _ H2) as (p' & b' & page' & j1 & j2 & Hl2 & Hf2).
  assert (Hover : files (run args env (files (run args env fs world1).2) world2).2
                  = <[raw_results_png := j2]> (<[results_png := j1]> fs)).
  { rewrite Hf2, Hf1.
    rewrite (insert_insert_ne _ results_png raw_results_png) by apply paths_differ.
    by rewrite !insert_insert_eq. }
  rewrite Hover, Hl2, Hl1, Hf1. cbn.
  split; [ reflexivity | split; [ reflexivity | split; [ | reflexivity ] ] ].
  by rewrite !dom_insert_L.
Qed.

Lemma rerun_overwrites_cooperative :
  written (log (rerun [] ∅ ∅ cooperative cooperative).2)
  = written (log (run [] ∅ ∅ cooperative).2).
Proof.
  destruct (rerun_overwrites [] ∅ ∅ cooperative cooperative)
    as (_ & Hsame & _); [ unfold_run; reflexivity .. | ].
  exact Hsame.
Defined.

(** ** Arguments and environment *)

Lemma oblivious_ret {A} (a : A) : oblivious (mret a).
Proof. intros s1 s2 H. split; [ reflexivity | exact H ]. Qed.

Lemma oblivious_bind {A B} (m : M A) (k : A -> M B) :
  oblivious m -> (forall a, oblivious (k a)) -> oblivious (m ≫= k).
Proof.
  intros Hm Hk s1 s2 H. unfold mbind, M_bind, bind.
  destruct (Hm s1 s2 H) as [Hr Hs].
  destruct (m s1) as [r1 s1'], (m s2) as [r2 s2']; cbn in Hr, Hs. subst r2.
  destruct r1 as [a | e]; [ apply Hk, Hs | split; [ reflexivity | exact Hs ] ].
Qed.

Lemma oblivious_await (c : call) : oblivious (await c).
Proof.
  intros [a1 e1 f1 w1 l1] [a2 e2 f2 w2 l2] (Hf & Hw & Hl).
  cbn in Hf, Hw, Hl. subst f2 w2 l2. unfold await; cbn.
  destruct (w1 l1 c) as [e | v]; [ by repeat split | ].
  destruct c; by repeat split.
Qed.

Lemma oblivious_try_finally {A} (body : M A) (cleanup : M unit) :
  oblivious body -> oblivious cleanup -> oblivious (try_finally body cleanup).
Proof.
  intros Hb Hc s1 s2 H. unfold try_finally.
  destruct (Hb s1 s2 H) as [Hr Hs].
  destruct (body s1) as [r1 s1'], (body s2) as [r2 s2']; cbn in Hr, Hs. subst r2.
  destruct (Hc s1' s2' Hs) as [Hr' Hs'].
  destruct (cleanup s1') as [c1 t1], (cleanup s2') as [c2 t2]; cbn in Hr', Hs'.
  subst c2. destruct c1; by split.
Qed.

Lemma oblivious_async_with {A} (body : Playwright -> M A) :
  (forall p, oblivious (body p)) -> oblivious (async_with body).
Proof.
  intros Hb. apply oblivious_bind; [ awaited oblivious_await | ].
  intros p. apply oblivious_try_finally; [ apply Hb | awaited oblivious_await ].
Qed.

Lemma oblivious_main : oblivious main.
Proof.
  apply oblivious_async_with; intros p.
  repeat first
    [ awaited oblivious_await
    | apply oblivious_ret
    | apply oblivious_try_finally
    | apply oblivious_bind; [ | intros ? ] ].
Qed.

(** A script that read the environment would not pass. *)
Example os_getenv_not_oblivious : ~ oblivious (os_getenv "HOME").
Proof.
  intros H.
  destruct (H (State [] ∅ ∅ cooperative [])
              (State [] {["HOME" := "/root"]} ∅ cooperative [])) as [Hr _];
    [ by repeat split | ].
  discriminate Hr.
Qed.

(** C9: two invocations that differ only in their arguments and their
    environment end the same way, issue the same calls with the same
    arguments and paths, get the same replies, and leave the same
    files. *)
Theorem independent_of_argv_and_environ args1 env1 args2 env2 fs world :
  let run1 := run args1 env1 fs world in
  let run2 := run args2 env2 fs world in
  run1.1 = run2.1
  /\ calls (log run1.2) = calls (log run2.2)
  /\ log run1.2 = log run2.2
  /\ files run1.2 = files run2.2.
Proof.
  intros run1 run2.
  destruct (oblivious_main (State args1 env1 fs world [])
              (State args2 env2 fs world [])) as (Hr & Hf & _ & Hl);
    [ by repeat split | ].
  subst run1 run2. unfold run, script, asyncio_run.
  rewrite Hr, Hl, Hf. done.
Qed.

(** ** The second screenshot comes after the first *)

Lemma wrote_results_written pre :
  existsb wrote_results pre = true -> results_png ∈ written pre.
Proof.
  induction pre as [| ev pre IH]; cbn; [ discriminate | ].
  unfold written, images in *. cbn. unfold wrote_results.
  destruct (image ev) as [[path data] |]; cbn.
  - intros [Heq | Hrest]%orb_true_iff.
    + apply String.eqb_eq in Heq as ->. apply list_elem_of_here.
    + apply list_elem_of_further, IH, Hrest.
  - exact IH.
Qed.

Lemma first_then_second_sound l :
  forall seen, first_then_second seen l = true ->
  forall pre ev post, l = pre ++ ev :: post ->
    after_first_screenshot (ev_call ev) = true ->
    seen = true \/ existsb wrote_results pre = true.
Proof.
  induction l as [| a l IH]; intros seen Hscan pre ev post Hsplit Hafter.
  - destruct pre; discriminate.
  - cbn in Hscan. apply andb_true_iff in Hscan as [Hhere Hrest].
    destruct pre as [| a' pre]; cbn in Hsplit; injection Hsplit as <- ->.
    + rewrite Hafter in Hhere. left. exact Hhere.
    + destruct (IH _ Hrest pre ev post eq_refl Hafter) as [H | H].
      * apply orb_true_iff in H as [H | H]; [ by left | ].
        right. cbn. by rewrite H.
      * right. cbn. rewrite H. apply orb_true_r.
Qed.

Lemma run_first_then_second args env fs world :
  first_then_second false (log (run args env fs world).2) = true.
Proof. run_cases world; reflexivity. Qed.

(** C10: wherever in a run the click on "raw" or the second screenshot
    is issued, [results.png] has been written before it in that run. *)
Theorem second_screenshot_after_first args env fs world pre ev post :
  log (run args env fs world).2 = pre ++ ev :: post ->
  after_first_screenshot (ev_call ev) = true ->
  results_png ∈ written pre.
Proof.
  intros Hsplit Hafter. apply wrote_results_written.
  destruct (first_then_second_sound _ false
              (run_first_then_second args env fs world)
              pre ev post Hsplit Hafter) as [H | H];
    [ discriminate H | exact H ].
Qed.

Lemma second_screenshot_after_first_cooperative :
  results_png ∈ written (take 10 (log (run [] ∅ ∅ cooperative).2)).
Proof.
  apply (second_screenshot_after_first [] ∅ ∅ cooperative _
           (Ev (screenshot (PageHandle 1) raw_results_png None) (inr png))
           (drop 11 (log (run [] ∅ ∅ cooperative).2)));
    unfold_run; reflexivity.
Defined.

(** ** The Playwright driver is always released *)

(** Once the [async with] block is entered, it is left exactly once in
    every run, whatever happens inside, and leaving it is the last
    thing the script does. *)
Theorem aexit_once_and_last args env fs world p :
  let l := log (run args env fs world).2 in
  omap entered l = [p] ->
  exits l = 1 /\ last (calls l) = Some (async_playwright_aexit p).
Proof.
  run_cases world; intros H; try discriminate H; injection H as <-.
  all: split; reflexivity.
Qed.

Lemma aexit_once_and_last_new_page_fails :
  exits (log (run [] ∅ ∅ new_page_fails).2) = 1
  /\ last (calls (log (run [] ∅ ∅ new_page_fails).2))
     = Some (async_playwright_aexit (PlaywrightHandle 1)).
Proof.
  apply (aexit_once_and_last [] ∅ ∅ new_page_fails (PlaywrightHandle 1)).
  unfold_run. reflexivity.
Defined.

(** When entering the [async with] block raises, that is the only call
    of the run: no browser is launched, the block is not left, no file
    is written, and the exception leaves the script as it is. *)
Theorem aenter_failure_is_the_whole_run args env fs world :
  let r := (run args env fs world).1 in
  let s := (run args env fs world).2 in
  omap entered (log s) = [] ->
  exists e,
    log s = [Ev async_playwright_aenter (inl e)]
    /\ r = Raised e
    /\ files s = fs.
Proof.
  run_cases world; intros H; try discriminate H.
  eexists. repeat split.
Qed.

Lemma aenter_failure_enter_fails :
  exists e,
    log (run [] ∅ ∅ enter_fails).2 = [Ev async_playwright_aenter (inl e)]
    /\ (run [] ∅ ∅ enter_fails).1 = Raised e
    /\ files (run [] ∅ ∅ enter_fails).2 = ∅.
Proof.
  apply (aenter_failure_is_the_whole_run [] ∅ ∅ enter_fails).
  unfold_run. reflexivity.
Defined.

(** ** Failing before the [try] *)

(** A run that does not get to the [try] block (entering, the launch
    or [new_page] raised) fails, never invokes [close], performs no
    operation on a page and writes no file. *)
Theorem failure_before_try args env fs world :
  let r := (run args env fs world).1 in
  let s := (run args env fs world).2 in
  try_entered (log s) = false ->
  (exists e, r = Raised e)
  /\ closes (log s) = 0
  /\ page_events (log s) = []
  /\ files s = fs.
Proof.
  run_cases world; intros H; try discriminate H.
  all: repeat split; eauto.
Qed.

Lemma failure_before_try_new_page_fails :
  (exists e, (run [] ∅ ∅ new_page_fails).1 = Raised e)
  /\ closes (log (run [] ∅ ∅ new_page_fails).2) = 0
  /\ page_events (log (run [] ∅ ∅ new_page_fails).2) = []
  /\ files (run [] ∅ ∅ new_page_fails).2 = ∅.
Proof.
  apply (failure_before_try [] ∅ ∅ new_page_fails).
  unfold_run. reflexivity.
Defined.

(** ** One session, one page *)


(** No call is made twice in a run: nothing is retried, and a run has
    at most thirteen calls. *)
Theorem no_call_twice args env fs world :
  let l := log (run args env fs world).2 in
  NoDup (calls l) /\ length l <= 13.
Proof.
  run_cases world.
  all: split; [ | lia ].
  all: apply (NoDup_fmap_1 call_name), (bool_decide_unpack _).
  all: vm_compute; reflexivity.
Qed.

(** ** Files *)

Lemma write_all_other ws : forall (fs : gmap string bytes) path,
  path ∉ ws.*1 -> write_all ws fs !! path = fs !! path.
Proof.
  induction ws as [| [q d] ws IH]; intros fs path Hnot; [ reflexivity | ].
  cbn in Hnot. apply not_elem_of_cons in Hnot as [Hne Hrest].
  change (write_all ((q, d) :: ws) fs) with (write_all ws (<[q := d]> fs)).
  rewrite IH by exact Hrest. apply lookup_insert_ne. congruence.
Qed.

(** A path no screenshot of the run was saved to holds after the run
    what it held before. *)
Theorem unwritten_paths_untouched args env fs world path :
  let s := (run args env fs world).2 in
  path ∉ written (log s) ->
  files s !! path = fs !! path.
Proof.
  intros s Hnot. subst s. rewrite files_after_run.
  apply write_all_other, Hnot.
Qed.

Lemma unwritten_paths_untouched_cooperative :
  files (run [] ∅ {["notes.txt" := png]} cooperative).2 !! "notes.txt"
  = ({["notes.txt" := png]} : gmap string bytes) !! "notes.txt".
Proof.
  apply (unwritten_paths_untouched [] ∅ {["notes.txt" := png]} cooperative).
  unfold_run. unfold written, images. cbn.
  rewrite !not_elem_of_cons. repeat split; (discriminate || apply not_elem_of_nil).
Defined.

(** A screenshot that was saved stays on disk with the bytes the
    browser returned, also when the run fails afterwards: nothing is
    rolled back. *)
Theorem saved_screenshots_stay args env fs world path data :
  let s := (run args env fs world).2 in
  (path, data) ∈ images (log s) ->
  files s !! path = Some data.
Proof.
  run_cases world; cbn.
  all: rewrite ?elem_of_cons; intros H.
  all: repeat match goal with
         | H : _ \/ _ |- _ => destruct H as [H | H]
         | H : _ ∈ [] |- _ => apply not_elem_of_nil in H; destruct H
         | H : (_, _) = (_, _) |- _ => injection H as -> ->
         end.
  all: try (apply lookup_insert_eq).
  all: rewrite lookup_insert_ne by apply paths_differ'; apply lookup_insert_eq.
Qed.

Lemma saved_screenshots_stay_raw_tab_missing :
  (exists e, (run [] ∅ ∅ raw_tab_missing).1 = Raised e)
  /\ files (run [] ∅ ∅ raw_tab_missing).2 !! results_png = Some png.
Proof.
  split; [ unfold_run; eexists; reflexivity | ].
  apply (saved_screenshots_stay [] ∅ ∅ raw_tab_missing).
  unfold_run. apply list_elem_of_here.
Defined.
